(** * scan_airthings_devices.py: scan for BLE devices and read Airthings sensors

    A shallow embedding of the script's orchestration.  The script is a thin
    layer over two library calls, [BleakScanner.discover] and
    [AirthingsBluetoothDeviceData.update_device]; both are taken as oracles
    over an abstract radio environment, and every console or logging call the
    script makes is recorded, in program order, in a trace of events.
    Python exceptions are an explicit outcome threaded through a small
    state-and-trace monad. *)

From Stdlib Require Import String Ascii List Bool Arith ZArith Lia.
From Stdlib Require Import Sorting.Sorted Sorting.Permutation.
From Stdlib Require Import Structures.OrdersEx.
From Stdlib Require Import Numbers.DecimalString.
From Stdlib Require Import Floats.SpecFloat.
Import ListNotations.
Local Open Scope string_scope.
Local Open Scope list_scope.

(** ** Python values the script handles *)

Module Py.

(** A Python [float]: the IEEE-754 binary64 datum, by its specification. *)
Definition float := spec_float.

(** [x <= y] on floats (false when either side is NaN). *)
Definition float_le (x y : float) : bool := SFleb x y.

Definition float_zero : float := S754_zero false.
Definition float_neg_one : float := S754_finite true 4503599627370496 (-52).
Definition float_eight : float := S754_finite false 4503599627370496 (-49).

(** [str(n)] for a non-negative [int], as [len] returns it. *)
Definition str_of_nat (n : nat) : string :=
  NilZero.string_of_uint (Nat.to_uint n).

(** [str(x)] for an optional string: [None] prints as the word None. *)
Definition str_of_option (o : option string) : string :=
  match o with
  | Some s => s
  | None => "None"
  end.

(** Truth value of a [str]: the empty string is false. *)
Definition truthy_str (s : string) : bool :=
  match s with
  | EmptyString => false
  | String _ _ => true
  end.

(** Truth value of a list: the empty list is false. *)
Definition truthy_list {A : Type} (l : list A) : bool :=
  match l with
  | [] => false
  | _ :: _ => true
  end.

(** [a < b] on [str]: lexicographic on the encoded characters. *)
Definition str_lt (a b : string) : bool :=
  match String_as_OT.compare a b with
  | Lt => true
  | _ => false
  end.

(** The lexicographic order on strings, spelled out: a proper prefix comes
    first, otherwise the first differing character decides. *)
Inductive lex_lt : string -> string -> Prop :=
| lex_lt_nil : forall c s, lex_lt EmptyString (String c s)
| lex_lt_head : forall c1 c2 s1 s2,
    (N_of_ascii c1 < N_of_ascii c2)%N ->
    lex_lt (String c1 s1) (String c2 s2)
| lex_lt_tail : forall c s1 s2,
    lex_lt s1 s2 -> lex_lt (String c s1) (String c s2).

(** [needle in hay] on strings. *)
Fixpoint starts_with (needle hay : string) : bool :=
  match needle, hay with
  | EmptyString, _ => true
  | String _ _, EmptyString => false
  | String a n, String b h => Ascii.eqb a b && starts_with n h
  end.

Fixpoint contains (needle hay : string) : bool :=
  starts_with needle hay
  || match hay with
     | EmptyString => false
     | String _ h => contains needle h
     end.

(** [str.lower] on ASCII text: the letters A to Z move to a to z. *)
Definition lower_char (c : ascii) : ascii :=
  let n := nat_of_ascii c in
  if Nat.leb 65 n && Nat.leb n 90 then ascii_of_nat (n + 32) else c.

Fixpoint lower_ascii (s : string) : string :=
  match s with
  | EmptyString => EmptyString
  | String c rest => String (lower_char c) (lower_ascii rest)
  end.

(** The exceptions the script distinguishes.  [UnsupportedDeviceError] and
    every [OtherException] derive from [Exception]; [Interrupt] stands for
    the [BaseException]s outside [Exception] ([KeyboardInterrupt],
    [asyncio.CancelledError]), which [except Exception] does not catch.
    The string is [str(exc)]. *)
Inductive exn : Type :=
| UnsupportedDeviceError
| OtherException (msg : string)
| Interrupt (msg : string).

(** [isinstance(e, Exception)]. *)
Definition is_Exception (e : exn) : bool :=
  match e with
  | UnsupportedDeviceError => true
  | OtherException _ => true
  | Interrupt _ => false
  end.

(** The result of evaluating a statement or call. *)
Inductive outcome (A : Type) : Type :=
| Ok (a : A)
| Raise (e : exn).
Arguments Ok {A} a.
Arguments Raise {A} e.

Definition returns_normally {A : Type} (o : outcome A) : bool :=
  match o with
  | Ok _ => true
  | Raise _ => false
  end.

End Py.
Export Py.

(** ** Data model *)

(** [bleak.backends.device.BLEDevice], as far as the script reads it. *)
Record BLEDevice : Type := mkBLEDevice {
  ble_address : string;
  ble_name : option string
}.

(** [airthings_ble.AirthingsDeviceType]: an enum member; only its
    [product_name] is read.  Enum members are true in a boolean context. *)
Record AirthingsDeviceType : Type := mkDeviceType {
  product_name : string;
  enum_str : string
}.

(** [airthings_ble.AirthingsDevice], the reading [update_device] returns.
    [sensors] is the dict in insertion order; its keys are unique. *)
Record AirthingsDevice (value : Type) : Type := mkAirthingsDevice {
  name : option string;
  model : option AirthingsDeviceType;
  manufacturer : string;
  identifier : string;
  sw_version : string;
  address : string;
  sensors : list (string * value)
}.
Arguments mkAirthingsDevice {value}.
Arguments name {value}.
Arguments model {value}.
Arguments manufacturer {value}.
Arguments identifier {value}.
Arguments sw_version {value}.
Arguments address {value}.
Arguments sensors {value}.

(** The parsed command line ([argparse.Namespace]). *)
Record Namespace : Type := mkNamespace {
  connect : option string;
  timeout : float;
  imperial : bool;
  debug : bool
}.

(** ** Observable events *)

Inductive log_level : Type := DEBUG | INFO.

(** What the program does to the outside, in program order: a [print], a
    [logger.error], the [logging.basicConfig] call, a discovery request and
    a read attempt on a device. *)
Inductive event : Type :=
| Print (text : string)
| LogError (msg : string)
| BasicConfig (level : log_level)
| Discover (timeout : float)
| UpdateDevice (is_metric : bool) (d : BLEDevice).

(** Projections of a trace. *)
Fixpoint printed (tr : list event) : list string :=
  match tr with
  | [] => []
  | Print text :: rest => text :: printed rest
  | _ :: rest => printed rest
  end.

Fixpoint log_messages (tr : list event) : list string :=
  match tr with
  | [] => []
  | LogError msg :: rest => msg :: log_messages rest
  | _ :: rest => log_messages rest
  end.

Fixpoint read_attempts (tr : list event) : list BLEDevice :=
  match tr with
  | [] => []
  | UpdateDevice _ d :: rest => d :: read_attempts rest
  | _ :: rest => read_attempts rest
  end.

Fixpoint discoveries (tr : list event) : list float :=
  match tr with
  | [] => []
  | Discover t :: rest => t :: discoveries rest
  | _ :: rest => discoveries rest
  end.

(** The unit flag of each read attempt, in order. *)
Fixpoint read_flags (tr : list event) : list bool :=
  match tr with
  | [] => []
  | UpdateDevice m _ :: rest => m :: read_flags rest
  | _ :: rest => read_flags rest
  end.

(** ** A scripted environment for concrete runs *)

Module Scripted.

(** Sensor values held as the text [str()] gives. *)
Definition value : Type := string.
Definition value_str (v : value) : string := v.
Definition value_lt (a b : value) : bool := str_lt a b.

(** [repr] on the floats the runs below use. *)
Definition float_str (x : float) : string :=
  match x with
  | S754_zero false => "0.0"
  | S754_zero true => "-0.0"
  | S754_infinity false => "inf"
  | S754_infinity true => "-inf"
  | S754_nan => "nan"
  | S754_finite s 4503599627370496 (-52) => if s then "-1.0" else "1.0"
  | S754_finite s 4503599627370496 (-49) => if s then "-8.0" else "8.0"
  | S754_finite _ _ _ => "<float>"
  end.

Definition devA : BLEDevice :=
  mkBLEDevice "AA:BB:CC:DD:EE:01" (Some "Wave Plus").
Definition devB : BLEDevice :=
  mkBLEDevice "AA:BB:CC:DD:EE:02" None.
Definition devC : BLEDevice :=
  mkBLEDevice "AA:BB:CC:DD:EE:03" (Some "Corentium Home 2").
(** A second advertisement under the address of [devA]. *)
Definition devA2 : BLEDevice :=
  mkBLEDevice "aa:bb:cc:dd:ee:01" (Some "Shadow").

Definition readingA : AirthingsDevice value :=
  mkAirthingsDevice (Some "Wave Plus")
    (Some (mkDeviceType "Wave Plus" "AirthingsDeviceType.WAVE_PLUS"))
    "Airthings AS" "2930012345" "G-BLE-1.5.3" "AA:BB:CC:DD:EE:01"
    [("temperature", "21.5"); ("co2", "612.0"); ("humidity", "38.5")].

(** The same reading with the dict filled in another order. *)
Definition readingA_reordered : AirthingsDevice value :=
  mkAirthingsDevice (Some "Wave Plus")
    (Some (mkDeviceType "Wave Plus" "AirthingsDeviceType.WAVE_PLUS"))
    "Airthings AS" "2930012345" "G-BLE-1.5.3" "AA:BB:CC:DD:EE:01"
    [("humidity", "38.5"); ("temperature", "21.5"); ("co2", "612.0")].

(** A reading whose model was not recognised. *)
Definition readingC : AirthingsDevice value :=
  mkAirthingsDevice (Some "Corentium Home 2") None
    "Airthings AS" "3250011111" "1.0.4" "AA:BB:CC:DD:EE:03"
    [("radon_1day_avg", "14.0"); ("battery", "87")].

(** The environment: the discovery results still to come.  Reading a
    device depends on its address only. *)
Definition World : Type := list (outcome (list BLEDevice)).

Definition discover (_ : float) (w : World)
    : outcome (list BLEDevice) * World :=
  match w with
  | [] => (Ok [], [])
  | r :: rest => (r, rest)
  end.

Definition update_device (_ : bool) (d : BLEDevice) (w : World)
    : outcome (AirthingsDevice value) * World :=
  let a := lower_ascii (ble_address d) in
  if String.eqb a "aa:bb:cc:dd:ee:01" then (Ok readingA, w)
  else if String.eqb a "aa:bb:cc:dd:ee:03" then (Ok readingC, w)
  else if String.eqb a "aa:bb:cc:dd:ee:02"
       then (Raise UnsupportedDeviceError, w)
       else (Raise (OtherException "Device disconnected"), w).

End Scripted.

(** The scripted environment with the user interrupting the read of the
    second device ([KeyboardInterrupt], whose text is empty). *)
Module Interrupted.

Definition update_device (m : bool) (d : BLEDevice) (w : Scripted.World)
    : outcome (AirthingsDevice Scripted.value) * Scripted.World :=
  if String.eqb (lower_ascii (ble_address d)) "aa:bb:cc:dd:ee:02"
  then (Raise (Interrupt ""), w)
  else Scripted.update_device m d w.

End Interrupted.

Section Orchestrator.

(** A sensor value ([str | float | None] in the library) with its [str()]
    and its [<], which [sorted] would consult on equal keys only. *)
Variable value : Type.
Variable value_str : value -> string.
Variable value_lt : value -> value -> bool.

(** Formatting of a float inside an f-string ([repr] of the float). *)
Variable float_str : float -> string.

(** [str.lower]. *)
Variable lower : string -> string.

(** The radio environment and the two library calls made on it. *)
Variable World : Type.
Variable discover : float -> World -> outcome (list BLEDevice) * World.
Variable update_device :
  bool -> BLEDevice -> World -> outcome (AirthingsDevice value) * World.

(** ** The monad: environment state, trace of events, exceptions *)

Definition M (A : Type) : Type := World -> outcome A * World * list event.

Definition ret {A : Type} (a : A) : M A := fun w => (Ok a, w, []).

Definition bind {A B : Type} (m : M A) (k : A -> M B) : M B :=
  fun w =>
    match m w with
    | (Ok a, w1, t1) =>
        match k a w1 with
        | (r, w2, t2) => (r, w2, t1 ++ t2)
        end
    | (Raise e, w1, t1) => (Raise e, w1, t1)
    end.

Definition emit (e : event) : M unit := fun w => (Ok tt, w, [e]).

(** [try: body / except ...: handler e]; the handler decides which
    exceptions it takes by returning [None] for the others. *)
Definition try_except {A : Type} (body : M A)
    (handler : exn -> option (M A)) : M A :=
  fun w =>
    match body w with
    | (Ok a, w1, t1) => (Ok a, w1, t1)
    | (Raise e, w1, t1) =>
        match handler e with
        | Some h =>
            match h w1 with
            | (r, w2, t2) => (r, w2, t1 ++ t2)
            end
        | None => (Raise e, w1, t1)
        end
    end.

Definition lift {A : Type} (o : outcome A) : M A := fun w => (o, w, []).

Definition result {A : Type} (r : outcome A * World * list event) : outcome A :=
  fst (fst r).
Definition trace {A : Type} (r : outcome A * World * list event) : list event :=
  snd r.

Notation "x <- m ;; k" := (bind m (fun x => k))
  (at level 61, m at next level, right associativity).
Notation "m ;; k" := (bind m (fun _ => k))
  (at level 61, right associativity).

(** [for x in l: body x]. *)
Fixpoint for_each {A : Type} (l : list A) (body : A -> M unit) : M unit :=
  match l with
  | [] => ret tt
  | x :: rest => body x ;; for_each rest body
  end.

(** ** Library and built-in calls *)

Definition print (text : string) : M unit := emit (Print text).

Definition logger_error (msg : string) : M unit := emit (LogError msg).

Definition BleakScanner_discover (timeout : float) : M (list BLEDevice) :=
  fun w =>
    match discover timeout w with
    | (o, w1) => (o, w1, [Discover timeout])
    end.

Definition client_update_device (is_metric : bool) (d : BLEDevice)
    : M (AirthingsDevice value) :=
  fun w =>
    match update_device is_metric d w with
    | (o, w1) => (o, w1, [UpdateDevice is_metric d])
    end.

(** Attribute access [m.product_name]; on [None] it raises
    [AttributeError]. *)
Definition getattr_product_name (m : option AirthingsDeviceType)
    : outcome string :=
  match m with
  | Some t => Ok (product_name t)
  | None =>
      Raise (OtherException
               "'NoneType' object has no attribute 'product_name'")
  end.

Definition truthy_model (m : option AirthingsDeviceType) : bool :=
  match m with
  | Some _ => true
  | None => false
  end.

Definition str_of_model (m : option AirthingsDeviceType) : string :=
  match m with
  | Some t => enum_str t
  | None => "None"
  end.

(** [<] on the [(key, value)] tuples of [dict.items()]: the first
    components decide unless they are equal. *)
Definition item_lt (a b : string * value) : bool :=
  if String.eqb (fst a) (fst b)
  then value_lt (snd a) (snd b)
  else str_lt (fst a) (fst b).

(** [sorted]: a stable sort that only asks [<]. *)
Fixpoint insert_sorted (x : string * value) (l : list (string * value))
    : list (string * value) :=
  match l with
  | [] => [x]
  | y :: rest =>
      if item_lt y x then y :: insert_sorted x rest else x :: y :: rest
  end.

Definition sorted (l : list (string * value)) : list (string * value) :=
  fold_right insert_sorted [] l.

(** ** The script *)

Definition scan (timeout : float) : M (list BLEDevice) :=
  print ("Scanning for BLE devices for " ++ float_str timeout
           ++ " seconds...") ;;
  devices <- BleakScanner_discover timeout ;;
  if negb (truthy_list devices) then
    print "No BLE devices found" ;;
    ret []
  else
    print ("Found " ++ str_of_nat (length devices) ++ " device(s)") ;;
    ret devices.

Definition sensor_line (kv : string * value) : string :=
  "  " ++ fst kv ++ ": " ++ value_str (snd kv).

Definition newline : string := String (ascii_of_nat 10) EmptyString.

Definition print_device (device : AirthingsDevice value) : M unit :=
  print "Device info:" ;;
  print ("  Name: " ++ str_of_option (name device)) ;;
  model_text <- (if truthy_model (model device)
                 then lift (getattr_product_name (model device))
                 else ret (str_of_model (model device))) ;;
  print ("  Model: " ++ model_text) ;;
  print ("  Manufacturer: " ++ manufacturer device) ;;
  print ("  Serial: " ++ identifier device) ;;
  print ("  Firmware: " ++ sw_version device) ;;
  print ("  Address: " ++ address device) ;;
  print "Sensors:" ;;
  for_each (sorted (sensors device))
    (fun kv => print (sensor_line kv)) ;;
  print newline.

Definition address_matches (address : string) (d : BLEDevice) : bool :=
  String.eqb (lower (ble_address d)) (lower address).

(** The [for d in devices: if ...: target = d; break] loop. *)
Fixpoint find_target (address : string) (devices : list BLEDevice)
    : option BLEDevice :=
  match devices with
  | [] => None
  | d :: rest =>
      if address_matches address d then Some d
      else find_target address rest
  end.

Definition connect_and_read (address : string) (timeout : float)
    (is_metric : bool) : M unit :=
  devices <- BleakScanner_discover timeout ;;
  match find_target address devices with
  | None =>
      print ("Device with address " ++ address
               ++ " not found during scan.") ;;
      print "Run without --connect to list available addresses."
  | Some target =>
      try_except
        (print ("Connecting to " ++ ble_address target ++ " ...") ;;
         device <- client_update_device is_metric target ;;
         print_device device)
        (fun e =>
           match e with
           | UnsupportedDeviceError =>
               Some (logger_error
                       "The device is not a supported Airthings device.")
           | OtherException exc =>
               Some (logger_error
                       ("Error connecting/reading device: " ++ exc))
           | Interrupt _ => None
           end)
  end.

Definition read_one (is_metric : bool) (d : BLEDevice) : M unit :=
  try_except
    (print ("Attempting to read " ++ ble_address d ++ " ("
              ++ str_of_option (ble_name d) ++ ")") ;;
     device <- client_update_device is_metric d ;;
     print_device device)
    (fun e =>
       match e with
       | UnsupportedDeviceError =>
           Some (logger_error
                   ("Unsupported Airthings device at " ++ ble_address d))
       | OtherException exc =>
           Some (logger_error
                   ("Error reading " ++ ble_address d ++ ": " ++ exc))
       | Interrupt _ => None
       end).

Definition auto_find_and_read (timeout : float) (is_metric : bool)
    : M unit :=
  devices <- BleakScanner_discover timeout ;;
  if negb (truthy_list devices) then
    print "No BLE devices found"
  else
    for_each devices (read_one is_metric).

Definition truthy_connect (c : option string) : option string :=
  match c with
  | Some a => if truthy_str a then Some a else None
  | None => None
  end.

Definition main (args : Namespace) : M unit :=
  emit (BasicConfig (if debug args then DEBUG else INFO)) ;;
  match truthy_connect (connect args) with
  | Some a =>
      connect_and_read a (timeout args) (negb (imperial args))
  | None =>
      scan (timeout args) ;;
      auto_find_and_read (timeout args) (negb (imperial args))
  end.

(** ** What the rendering of a reading is *)

(** Order of two [items()] tuples by sensor name. *)
Definition key_lt (a b : string * value) : Prop :=
  lex_lt (fst a) (fst b).

Definition device_header (device : AirthingsDevice value) : list string :=
  [ "Device info:";
    ("  Name: " ++ str_of_option (name device))%string;
    ("  Model: " ++ match model device with
                    | Some t => product_name t
                    | None => "None"
                    end)%string;
    ("  Manufacturer: " ++ manufacturer device)%string;
    ("  Serial: " ++ identifier device)%string;
    ("  Firmware: " ++ sw_version device)%string;
    ("  Address: " ++ address device)%string;
    "Sensors:" ].

Definition device_lines (device : AirthingsDevice value) : list string :=
  device_header device
    ++ map sensor_line (sorted (sensors device))
    ++ [newline].

(** Two readings that differ in the order of their sensors at most. *)
Definition same_reading (d1 d2 : AirthingsDevice value) : Prop :=
  name d1 = name d2 /\ model d1 = model d2
  /\ manufacturer d1 = manufacturer d2 /\ identifier d1 = identifier d2
  /\ sw_version d1 = sw_version d2 /\ address d1 = address d2
  /\ Permutation (sensors d1) (sensors d2).

(** The line announcing a read attempt in the discovery loop. *)
Definition attempt_line (d : BLEDevice) : string :=
  "Attempting to read " ++ ble_address d ++ " ("
    ++ str_of_option (ble_name d) ++ ")".

(** The events of one successful read in the discovery loop. *)
Definition reading_block (is_metric : bool) (d : BLEDevice)
    (r : AirthingsDevice value) : list event :=
  Print (attempt_line d) :: UpdateDevice is_metric d
    :: map Print (device_lines r).

(** Some error-level log message of the trace contains the address. *)
Definition logged_with_address (addr : string) (tr : list event) : Prop :=
  exists msg, In msg (log_messages tr) /\ contains addr msg = true.

(** A run that ends in an exception without having asked for discovery. *)
Definition rejected_before_io {A : Type}
    (r : outcome A * World * list event) : Prop :=
  returns_normally (result r) = false /\ discoveries (trace r) = [].

(** No read is cut short by an interrupt. *)
Definition never_interrupts : Prop :=
  forall (m : bool) (d : BLEDevice) (w : World) (msg : string),
    fst (update_device m d w) <> Raise (Interrupt msg).

(** * Properties *)

(** ** The order on strings *)

Lemma str_lt_lex (a b : string) : str_lt a b = true <-> lex_lt a b.
Proof.
  unfold str_lt. revert b.
  induction a as [|c a IH]; intros [|c' b]; simpl.
  - split; [discriminate | inversion 1].
  - split; [constructor | reflexivity].
  - split; [discriminate | inversion 1].
  - unfold Ascii_as_OT.compare.
    destruct (N.compare_spec (N_of_ascii c) (N_of_ascii c')) as [E|L|G].
    + assert (c = c') as ->.
      { rewrite <- (ascii_N_embedding c), <- (ascii_N_embedding c').
        now rewrite E. }
      rewrite IH. split.
      * now constructor.
      * inversion 1; subst; [lia | assumption].
    + split; [now constructor | reflexivity].
    + split; [discriminate |].
      inversion 1; subst; [lia |]. lia.
Qed.

Lemma lex_lt_irrefl (a : string) : ~ lex_lt a a.
Proof.
  induction a as [|c a IH]; inversion 1; subst; [lia | auto].
Qed.

Lemma lex_lt_trans (a b c : string) : lex_lt a b -> lex_lt b c -> lex_lt a c.
Proof.
  intros Hab. revert c.
  induction Hab; intros c' Hbc; inversion Hbc; subst.
  - constructor.
  - constructor.
  - constructor. lia.
  - now constructor.
  - now constructor.
  - apply lex_lt_tail. auto.
Qed.

Lemma lex_lt_total (a b : string) : a <> b -> lex_lt a b \/ lex_lt b a.
Proof.
  revert b. induction a as [|c a IH]; intros [|c' b] Hne.
  - congruence.
  - left. constructor.
  - right. constructor.
  - destruct (N.compare_spec (N_of_ascii c) (N_of_ascii c')) as [E|L|G].
    + assert (c = c') as ->.
      { rewrite <- (ascii_N_embedding c), <- (ascii_N_embedding c').
        now rewrite E. }
      destruct (IH b) as [H|H]; [congruence | |];
        [left | right]; now apply lex_lt_tail.
    + left. now constructor.
    + right. now constructor.
Qed.

(** ** [sorted] on the items of a dict *)

Lemma item_lt_keys (a b : string * value) :
  fst a <> fst b -> (item_lt a b = true <-> key_lt a b).
Proof.
  intros Hne. unfold item_lt, key_lt.
  destruct (String.eqb_spec (fst a) (fst b)) as [E|_]; [contradiction |].
  apply str_lt_lex.
Qed.

Lemma insert_sorted_perm (x : string * value) (l : list (string * value)) :
  Permutation (insert_sorted x l) (x :: l).
Proof.
  induction l as [|y l IH]; simpl.
  - apply Permutation_refl.
  - destruct (item_lt y x).
    + eapply perm_trans; [apply perm_skip, IH | apply perm_swap].
    + apply Permutation_refl.
Qed.

Lemma sorted_perm (l : list (string * value)) : Permutation (sorted l) l.
Proof.
  induction l as [|x l IH]; simpl.
  - constructor.
  - eapply perm_trans; [apply insert_sorted_perm | now apply perm_skip].
Qed.

Lemma insert_sorted_sorted (x : string * value) (l : list (string * value)) :
  StronglySorted key_lt l ->
  ~ In (fst x) (map fst l) ->
  StronglySorted key_lt (insert_sorted x l).
Proof.
  induction 1 as [|y l Hl IH Hy]; intros Hx; simpl.
  - repeat constructor.
  - assert (Hne : fst y <> fst x) by (intros E; apply Hx; now left).
    destruct (item_lt y x) eqn:E.
    + apply item_lt_keys in E; [|assumption].
      constructor.
      * apply IH. intros Hin. apply Hx. now right.
      * eapply Permutation_Forall;
          [apply Permutation_sym, insert_sorted_perm |].
        now constructor.
    + assert (Hxy : key_lt x y).
      { destruct (lex_lt_total (fst x) (fst y)) as [H|H];
          [congruence | assumption |].
        apply (item_lt_keys y x Hne) in H. congruence. }
      constructor; [now constructor |].
      constructor; [assumption |].
      eapply Forall_impl; [|exact Hy].
      intros z Hz. unfold key_lt in *. eapply lex_lt_trans; eassumption.
Qed.

Lemma sorted_sorted (l : list (string * value)) :
  NoDup (map fst l) -> StronglySorted key_lt (sorted l).
Proof.
  induction l as [|x l IH]; simpl; intros Hnd.
  - constructor.
  - inversion Hnd as [|k ks Hk Hks]; subst.
    apply insert_sorted_sorted; [auto |].
    intros Hin. apply Hk.
    eapply Permutation_in; [|exact Hin].
    apply Permutation_map, sorted_perm.
Qed.

(** A list has one arrangement sorted by key at most. *)
Lemma key_sorted_unique (l1 l2 : list (string * value)) :
  StronglySorted key_lt l1 -> StronglySorted key_lt l2 ->
  Permutation l1 l2 -> l1 = l2.
Proof.
  intros H1. revert l2.
  induction H1 as [|a l1 Hl1 IH Ha]; intros l2 H2 HP.
  - symmetry. now apply Permutation_nil.
  - destruct H2 as [|b l2 Hl2 Hb].
    + apply Permutation_sym, Permutation_nil in HP. discriminate.
    + assert (Hab : a = b).
      { assert (Ia : In a (b :: l2))
          by (eapply Permutation_in; [exact HP | now left]).
        assert (Ib : In b (a :: l1))
          by (eapply Permutation_in;
              [apply Permutation_sym; exact HP | now left]).
        destruct Ia as [E|Ia]; [now symmetry |].
        destruct Ib as [E|Ib]; [assumption |].
        rewrite Forall_forall in Ha, Hb.
        exfalso. apply (lex_lt_irrefl (fst a)).
        eapply lex_lt_trans; [apply (Ha b Ib) | apply (Hb a Ia)]. }
      subst b. f_equal. apply IH; [assumption |].
      eapply Permutation_cons_inv; exact HP.
Qed.

Lemma sorted_order_irrelevant (l1 l2 : list (string * value)) :
  NoDup (map fst l1) -> Permutation l1 l2 -> sorted l1 = sorted l2.
Proof.
  intros Hnd HP.
  assert (Hnd2 : NoDup (map fst l2)).
  { eapply Permutation_NoDup; [|exact Hnd]. now apply Permutation_map. }
  apply key_sorted_unique; try now apply sorted_sorted.
  eapply perm_trans; [apply sorted_perm |].
  eapply perm_trans; [exact HP |].
  apply Permutation_sym, sorted_perm.
Qed.

(** ** Projections of traces *)

Lemma printed_app (t1 t2 : list event) :
  printed (t1 ++ t2) = printed t1 ++ printed t2.
Proof.
  induction t1 as [|[] t1 IH]; simpl; now rewrite ?IH.
Qed.

Lemma log_messages_app (t1 t2 : list event) :
  log_messages (t1 ++ t2) = log_messages t1 ++ log_messages t2.
Proof.
  induction t1 as [|[] t1 IH]; simpl; now rewrite ?IH.
Qed.

Lemma read_attempts_app (t1 t2 : list event) :
  read_attempts (t1 ++ t2) = read_attempts t1 ++ read_attempts t2.
Proof.
  induction t1 as [|[] t1 IH]; simpl; now rewrite ?IH.
Qed.

Lemma discoveries_app (t1 t2 : list event) :
  discoveries (t1 ++ t2) = discoveries t1 ++ discoveries t2.
Proof.
  induction t1 as [|[] t1 IH]; simpl; now rewrite ?IH.
Qed.

Lemma printed_prints (l : list string) : printed (map Print l) = l.
Proof.
  induction l; simpl; congruence.
Qed.

Lemma log_messages_prints (l : list string) :
  log_messages (map Print l) = [].
Proof.
  induction l; simpl; auto.
Qed.

Lemma read_attempts_prints (l : list string) :
  read_attempts (map Print l) = [].
Proof.
  induction l; simpl; auto.
Qed.

Lemma discoveries_prints (l : list string) :
  discoveries (map Print l) = [].
Proof.
  induction l; simpl; auto.
Qed.

(** ** Running the pieces *)

Lemma for_each_print {A : Type} (f : A -> string) (l : list A) (w : World) :
  for_each l (fun x => print (f x)) w = (Ok tt, w, map Print (map f l)).
Proof.
  induction l as [|x l IH]; simpl.
  - reflexivity.
  - unfold bind, print, emit in *. now rewrite IH.
Qed.

Lemma print_device_run (device : AirthingsDevice value) (w : World) :
  print_device device w = (Ok tt, w, map Print (device_lines device)).
Proof.
  unfold print_device, device_lines, device_header.
  unfold bind at 1 2 3. unfold print at 1 2, emit. simpl.
  destruct (model device) as [t|]; simpl;
    unfold bind, print, emit, lift, ret; simpl;
    rewrite (for_each_print sensor_line); simpl;
    now rewrite map_app.
Qed.

Lemma discover_run (t : float) (w w1 : World)
    (o : outcome (list BLEDevice)) :
  discover t w = (o, w1) ->
  BleakScanner_discover t w = (o, w1, [Discover t]).
Proof.
  unfold BleakScanner_discover. now intros ->.
Qed.

Lemma update_run (m : bool) (d : BLEDevice) (w w1 : World)
    (o : outcome (AirthingsDevice value)) :
  update_device m d w = (o, w1) ->
  client_update_device m d w = (o, w1, [UpdateDevice m d]).
Proof.
  unfold client_update_device. now intros ->.
Qed.

Lemma read_one_ok (m : bool) (d : BLEDevice) (w w1 : World)
    (r : AirthingsDevice value) :
  update_device m d w = (Ok r, w1) ->
  read_one m d w = (Ok tt, w1, reading_block m d r).
Proof.
  intros H. unfold read_one, try_except, bind, print, emit. simpl.
  rewrite (update_run _ _ _ _ _ H), print_device_run. reflexivity.
Qed.

Lemma read_one_unsupported (m : bool) (d : BLEDevice) (w w1 : World) :
  update_device m d w = (Raise UnsupportedDeviceError, w1) ->
  read_one m d w =
    (Ok tt, w1,
     [Print (attempt_line d); UpdateDevice m d;
      LogError ("Unsupported Airthings device at " ++ ble_address d)]).
Proof.
  intros H. unfold read_one, try_except, bind, print, emit. simpl.
  rewrite (update_run _ _ _ _ _ H). reflexivity.
Qed.

Lemma read_one_other (m : bool) (d : BLEDevice) (w w1 : World)
    (exc : string) :
  update_device m d w = (Raise (OtherException exc), w1) ->
  read_one m d w =
    (Ok tt, w1,
     [Print (attempt_line d); UpdateDevice m d;
      LogError ("Error reading " ++ ble_address d ++ ": " ++ exc)]).
Proof.
  intros H. unfold read_one, try_except, bind, print, emit. simpl.
  rewrite (update_run _ _ _ _ _ H). reflexivity.
Qed.

Lemma read_one_interrupt (m : bool) (d : BLEDevice) (w w1 : World)
    (msg : string) :
  update_device m d w = (Raise (Interrupt msg), w1) ->
  read_one m d w =
    (Raise (Interrupt msg), w1, [Print (attempt_line d); UpdateDevice m d]).
Proof.
  intros H. unfold read_one, try_except, bind, print, emit. simpl.
  rewrite (update_run _ _ _ _ _ H). reflexivity.
Qed.

Lemma find_target_none (a : string) (devices : list BLEDevice) :
  (forall d, In d devices -> lower (ble_address d) <> lower a) ->
  find_target a devices = None.
Proof.
  induction devices as [|d rest IH]; simpl; intros H.
  - reflexivity.
  - unfold address_matches.
    destruct (String.eqb_spec (lower (ble_address d)) (lower a)) as [E|_].
    + exfalso. apply (H d); auto.
    + apply IH. intros d' Hd'. apply H. now right.
Qed.

Lemma find_target_some (a : string) (devices : list BLEDevice)
    (target : BLEDevice) :
  find_target a devices = Some target ->
  In target devices /\ lower (ble_address target) = lower a.
Proof.
  induction devices as [|d rest IH]; simpl; [discriminate |].
  unfold address_matches.
  destruct (String.eqb_spec (lower (ble_address d)) (lower a)) as [E|_].
  - intros [= <-]. auto.
  - intros H. destruct (IH H). auto.
Qed.

Lemma find_target_first (a : string) (pre rest : list BLEDevice)
    (d : BLEDevice) :
  (forall p, In p pre -> lower (ble_address p) <> lower a) ->
  lower (ble_address d) = lower a ->
  find_target a (pre ++ d :: rest) = Some d.
Proof.
  intros Hpre Hd. induction pre as [|p pre IH]; simpl.
  - unfold address_matches. rewrite Hd, String.eqb_refl. reflexivity.
  - unfold address_matches.
    destruct (String.eqb_spec (lower (ble_address p)) (lower a)) as [E|_].
    + exfalso. apply (Hpre p); auto. now left.
    + apply IH. intros q Hq. apply Hpre. now right.
Qed.

Lemma find_target_exists (a : string) (devices : list BLEDevice) :
  (exists d, In d devices /\ lower (ble_address d) = lower a) ->
  exists target, find_target a devices = Some target.
Proof.
  intros [d [Hin Hd]].
  induction devices as [|x rest IH]; simpl; [destruct Hin |].
  destruct (address_matches a x) eqn:E; [eauto |].
  destruct Hin as [->|Hin]; [|auto].
  unfold address_matches in E. rewrite Hd, String.eqb_refl in E.
  discriminate.
Qed.

(** What a targeted run does once the target is found, by the outcome of
    the read. *)
Lemma connect_and_read_found (a : string) (t : float) (m : bool)
    (devices : list BLEDevice) (target : BLEDevice) (w0 w1 w2 : World)
    (o : outcome (AirthingsDevice value)) :
  discover t w0 = (Ok devices, w1) ->
  find_target a devices = Some target ->
  update_device m target w1 = (o, w2) ->
  connect_and_read a t m w0 =
    match o with
    | Ok r =>
        (Ok tt, w2,
         Discover t :: Print ("Connecting to " ++ ble_address target ++ " ...")
           :: UpdateDevice m target :: map Print (device_lines r))
    | Raise UnsupportedDeviceError =>
        (Ok tt, w2,
         [Discover t;
          Print ("Connecting to " ++ ble_address target ++ " ...");
          UpdateDevice m target;
          LogError "The device is not a supported Airthings device."])
    | Raise (OtherException exc) =>
        (Ok tt, w2,
         [Discover t;
          Print ("Connecting to " ++ ble_address target ++ " ...");
          UpdateDevice m target;
          LogError ("Error connecting/reading device: " ++ exc)])
    | Raise (Interrupt msg) =>
        (Raise (Interrupt msg), w2,
         [Discover t;
          Print ("Connecting to " ++ ble_address target ++ " ...");
          UpdateDevice m target])
    end.
Proof.
  intros Hd Hf Hu. unfold connect_and_read.
  unfold bind at 1. rewrite (discover_run _ _ _ _ Hd), Hf.
  unfold try_except, bind, print, emit. simpl.
  rewrite (update_run _ _ _ _ _ Hu).
  destruct o as [r|[| |]]; simpl; try reflexivity.
  rewrite print_device_run. reflexivity.
Qed.

Lemma connect_and_read_attempts (a : string) (t : float) (m : bool)
    (devices : list BLEDevice) (target : BLEDevice) (w0 w1 : World) :
  discover t w0 = (Ok devices, w1) ->
  find_target a devices = Some target ->
  read_attempts (trace (connect_and_read a t m w0)) = [target].
Proof.
  intros Hd Hf.
  destruct (update_device m target w1) as [o w2] eqn:Hu.
  rewrite (connect_and_read_found _ _ _ _ _ _ _ _ _ Hd Hf Hu).
  destruct o as [r|[| |]]; simpl; try reflexivity.
  now rewrite read_attempts_prints.
Qed.

(** Each turn of the discovery loop makes one read attempt and no
    discovery; only an interrupt ends the loop early. *)
Lemma for_each_read_one_trace (m : bool) (devices : list BLEDevice)
    (w : World) :
  discoveries (trace (for_each devices (read_one m) w)) = []
  /\ exists k,
       read_attempts (trace (for_each devices (read_one m) w))
       = firstn k devices.
Proof.
  revert w. induction devices as [|d rest IH]; intros w; simpl.
  - split; [reflexivity | now exists 0].
  - unfold bind.
    destruct (update_device m d w) as [[r|[|exc|msg]] w1] eqn:Hu.
    + rewrite (read_one_ok _ _ _ _ _ Hu).
      destruct (IH w1) as [Hdis [k Hk]].
      destruct (for_each rest (read_one m) w1) as [[res w2] tr].
      unfold trace, reading_block in *. simpl in *.
      rewrite discoveries_app, read_attempts_app.
      rewrite discoveries_prints, read_attempts_prints, Hdis, Hk.
      split; [reflexivity | now exists (S k)].
    + rewrite (read_one_unsupported _ _ _ _ Hu).
      destruct (IH w1) as [Hdis [k Hk]].
      destruct (for_each rest (read_one m) w1) as [[res w2] tr].
      unfold trace in *. simpl in *. rewrite Hdis, Hk.
      split; [reflexivity | now exists (S k)].
    + rewrite (read_one_other _ _ _ _ _ Hu).
      destruct (IH w1) as [Hdis [k Hk]].
      destruct (for_each rest (read_one m) w1) as [[res w2] tr].
      unfold trace in *. simpl in *. rewrite Hdis, Hk.
      split; [reflexivity | now exists (S k)].
    + rewrite (read_one_interrupt _ _ _ _ _ Hu).
      unfold trace. simpl. split; [reflexivity | now exists 1].
Qed.

Lemma starts_with_app (s q : string) : starts_with s (s ++ q) = true.
Proof.
  induction s as [|c s IH]; simpl.
  - reflexivity.
  - now rewrite Ascii.eqb_refl, IH.
Qed.

Lemma contains_app (p s q : string) : contains s (p ++ s ++ q) = true.
Proof.
  induction p as [|c p IH]; simpl.
  - destruct (s ++ q)%string eqn:E; simpl;
      rewrite <- E, starts_with_app; reflexivity.
  - rewrite IH. apply orb_true_r.
Qed.

Lemma contains_at_end (p s : string) : contains s (p ++ s) = true.
Proof.
  induction p as [|c p IH]; simpl.
  - assert (H : starts_with s s = true).
    { induction s as [|c s IH]; simpl; [reflexivity |].
      now rewrite Ascii.eqb_refl, IH. }
    destruct s; simpl in *; [reflexivity | now rewrite H].
  - rewrite IH. apply orb_true_r.
Qed.

(** A run without a target is [scan] followed by [auto_find_and_read] in
    the environment [scan] left. *)
Lemma main_auto_run (args : Namespace) (w0 w1 : World)
    (ds1 : list BLEDevice) :
  connect args = None ->
  discover (timeout args) w0 = (Ok ds1, w1) ->
  main args w0 =
    match auto_find_and_read (timeout args) (negb (imperial args)) w1 with
    | (r, w2, tr) =>
        (r, w2,
         BasicConfig (if debug args then DEBUG else INFO)
           :: Print ("Scanning for BLE devices for "
                       ++ float_str (timeout args) ++ " seconds...")
           :: Discover (timeout args)
           :: Print (match ds1 with
                     | [] => "No BLE devices found"
                     | _ :: _ =>
                         "Found " ++ str_of_nat (length ds1) ++ " device(s)"
                     end)
           :: tr)
    end.
Proof.
  intros Hc H1. unfold main. rewrite Hc. simpl truthy_connect. cbv iota.
  unfold bind at 1. unfold emit at 1.
  unfold bind at 1.
  unfold scan, bind at 1, print at 1, emit at 1.
  unfold bind at 1. rewrite (discover_run _ _ _ _ H1).
  destruct ds1 as [|d ds1];
    cbv [truthy_list negb]; unfold bind at 1, print at 1, emit at 1, ret;
    destruct (auto_find_and_read _ _ w1) as [[r w2] tr]; reflexivity.
Qed.

Lemma auto_find_and_read_run (t : float) (m : bool) (w w1 : World)
    (ds : list BLEDevice) :
  discover t w = (Ok ds, w1) ->
  auto_find_and_read t m w =
    match ds with
    | [] => (Ok tt, w1, [Discover t; Print "No BLE devices found"])
    | _ :: _ =>
        match for_each ds (read_one m) w1 with
        | (r, w2, tr) => (r, w2, Discover t :: tr)
        end
    end.
Proof.
  intros H. unfold auto_find_and_read. unfold bind at 1.
  rewrite (discover_run _ _ _ _ H).
  destruct ds as [|d ds]; [reflexivity |].
  cbv [truthy_list negb].
  destruct (for_each (d :: ds) (read_one m) w1) as [[r w2] tr]. reflexivity.
Qed.

Lemma discover_first {A : Type} (t : float) (k : list BLEDevice -> M A)
    (w : World) :
  hd_error (trace (bind (BleakScanner_discover t) k w)) = Some (Discover t).
Proof.
  unfold bind, BleakScanner_discover.
  destruct (discover t w) as [[ds|e] w1]; [|reflexivity].
  destruct (k ds w1) as [[r w2] tr]. reflexivity.
Qed.

(** ** The claims *)

(** C1 (amended).  For every timeout, zero and negative ones included, the
    script validates nothing: [scan] prints its banner and hands the
    timeout unchanged to the discovery primitive, and the only error it
    surfaces is one the primitive itself raises.  The targeted and the
    automatic run likewise start with a discovery request for the given
    timeout. *)
Theorem scan_passes_timeout_through :
  forall (t : float) (w : World),
    scan t w =
      match discover t w with
      | (Ok devices, w1) =>
          (Ok devices, w1,
           [Print ("Scanning for BLE devices for " ++ float_str t
                     ++ " seconds...");
            Discover t;
            Print (match devices with
                   | [] => "No BLE devices found"
                   | _ :: _ =>
                       "Found " ++ str_of_nat (length devices)
                         ++ " device(s)"
                   end)])
      | (Raise e, w1) =>
          (Raise e, w1,
           [Print ("Scanning for BLE devices for " ++ float_str t
                     ++ " seconds...");
            Discover t])
      end
    /\ (forall a m, hd_error (trace (connect_and_read a t m w))
                    = Some (Discover t))
    /\ (forall m, hd_error (trace (auto_find_and_read t m w))
                  = Some (Discover t)).
Proof.
  intros t w. repeat split.
  - unfold scan, bind, print, emit, BleakScanner_discover. simpl.
    destruct (discover t w) as [[[|d ds]|e] w1]; reflexivity.
  - intros a m. apply discover_first.
  - intros m. apply discover_first.
Qed.

(** C2.  When discovery returns [A; B; C], reading [B] fails with
    [UnsupportedDeviceError] and reading [A] and [C] succeeds, the automatic
    run prints the readings of [A] and of [C] in that order, logs exactly
    one message, the unsupported-device message for [B], and ends normally
    after all three devices were tried. *)
Theorem auto_find_and_read_skips_unsupported :
  forall (t : float) (m : bool) (A B C : BLEDevice)
         (rA rC : AirthingsDevice value) (w0 w1 w2 w3 w4 : World),
    discover t w0 = (Ok [A; B; C], w1) ->
    update_device m A w1 = (Ok rA, w2) ->
    update_device m B w2 = (Raise UnsupportedDeviceError, w3) ->
    update_device m C w3 = (Ok rC, w4) ->
    auto_find_and_read t m w0 =
      (Ok tt, w4,
       Discover t
         :: reading_block m A rA
         ++ [Print (attempt_line B); UpdateDevice m B;
             LogError ("Unsupported Airthings device at " ++ ble_address B)]
         ++ reading_block m C rC)
    /\ log_messages (trace (auto_find_and_read t m w0)) =
         [("Unsupported Airthings device at " ++ ble_address B)%string]
    /\ printed (trace (auto_find_and_read t m w0)) =
         attempt_line A :: device_lines rA
           ++ attempt_line B
           :: attempt_line C :: device_lines rC
    /\ read_attempts (trace (auto_find_and_read t m w0)) = [A; B; C].
Proof.
  intros t m A B C rA rC w0 w1 w2 w3 w4 Hd HA HB HC.
  assert (E : auto_find_and_read t m w0 =
      (Ok tt, w4,
       Discover t
         :: reading_block m A rA
         ++ [Print (attempt_line B); UpdateDevice m B;
             LogError ("Unsupported Airthings device at " ++ ble_address B)]
         ++ reading_block m C rC)).
  { unfold auto_find_and_read. unfold bind at 1.
    rewrite (discover_run _ _ _ _ Hd). simpl.
    unfold bind.
    rewrite (read_one_ok _ _ _ _ _ HA).
    rewrite (read_one_unsupported _ _ _ _ HB).
    rewrite (read_one_ok _ _ _ _ _ HC).
    unfold ret. simpl. rewrite app_nil_r. reflexivity. }
  rewrite E. unfold trace, reading_block. simpl.
  rewrite log_messages_app, printed_app, read_attempts_app. simpl.
  rewrite !log_messages_prints, !printed_prints, !read_attempts_prints.
  auto.
Qed.

(** C3.  When no discovered device has the requested address, compared
    case-insensitively, the targeted run prints the not-found message,
    attempts no read and returns normally. *)
Theorem connect_and_read_not_found :
  forall (a : string) (t : float) (m : bool) (devices : list BLEDevice)
         (w0 w1 : World),
    discover t w0 = (Ok devices, w1) ->
    (forall d, In d devices -> lower (ble_address d) <> lower a) ->
    connect_and_read a t m w0 =
      (Ok tt, w1,
       [Discover t;
        Print ("Device with address " ++ a ++ " not found during scan.");
        Print "Run without --connect to list available addresses."])
    /\ read_attempts (trace (connect_and_read a t m w0)) = []
    /\ returns_normally (result (connect_and_read a t m w0)) = true.
Proof.
  intros a t m devices w0 w1 Hd Hno.
  assert (E : connect_and_read a t m w0 =
      (Ok tt, w1,
       [Discover t;
        Print ("Device with address " ++ a ++ " not found during scan.");
        Print "Run without --connect to list available addresses."])).
  { unfold connect_and_read. unfold bind at 1.
    rewrite (discover_run _ _ _ _ Hd), (find_target_none _ _ Hno).
    reflexivity. }
  rewrite E. auto.
Qed.

(** C4.  When some discovered device has the requested address, compared
    case-insensitively, the targeted run makes exactly one read attempt,
    on a discovered device whose address equals the requested one up to
    case. *)
Theorem connect_and_read_one_attempt :
  forall (a : string) (t : float) (m : bool) (devices : list BLEDevice)
         (w0 w1 : World),
    discover t w0 = (Ok devices, w1) ->
    (exists d, In d devices /\ lower (ble_address d) = lower a) ->
    exists target,
      In target devices
      /\ lower (ble_address target) = lower a
      /\ read_attempts (trace (connect_and_read a t m w0)) = [target].
Proof.
  intros a t m devices w0 w1 Hd Hex.
  destruct (find_target_exists _ _ Hex) as [target Hf].
  exists target.
  destruct (find_target_some _ _ _ Hf) as [Hin Hl].
  repeat split; try assumption.
  eapply connect_and_read_attempts; eassumption.
Qed.

(** C5.  For every reading whose sensor names are unique, as dict keys are,
    [print_device] prints, between the header and the closing blank line, one
    line for each sensor, in strictly increasing lexicographic order of the
    sensor names; a reading that differs in the order of its sensors only is
    printed the same. *)
Theorem print_device_sensors_sorted :
  forall (device : AirthingsDevice value) (w : World),
    NoDup (map fst (sensors device)) ->
    exists rows,
      printed (trace (print_device device w))
      = device_header device ++ map sensor_line rows ++ [newline]
      /\ Permutation rows (sensors device)
      /\ StronglySorted key_lt rows
      /\ forall device',
           same_reading device' device ->
           print_device device' w = print_device device w.
Proof.
  intros device w Hnd. exists (sorted (sensors device)).
  rewrite print_device_run. unfold trace. simpl.
  rewrite printed_prints. repeat split.
  - apply sorted_perm.
  - now apply sorted_sorted.
  - intros device' (Hn & Hm & Hf & Hi & Hs & Ha & HP).
    rewrite print_device_run. f_equal. f_equal.
    unfold device_lines, device_header.
    rewrite Hn, Hm, Hf, Hi, Hs, Ha.
    rewrite (sorted_order_irrelevant (sensors device') (sensors device));
      [reflexivity | | assumption].
    eapply Permutation_NoDup; [|exact Hnd].
    apply Permutation_map, Permutation_sym, HP.
Qed.

(** C6.  When discovery returns no device, the automatic run prints the
    no-devices message exactly once and attempts no read. *)
Theorem auto_find_and_read_empty :
  forall (t : float) (m : bool) (w0 w1 : World),
    discover t w0 = (Ok [], w1) ->
    auto_find_and_read t m w0 =
      (Ok tt, w1, [Discover t; Print "No BLE devices found"])
    /\ count_occ string_dec
         (printed (trace (auto_find_and_read t m w0)))
         "No BLE devices found" = 1
    /\ read_attempts (trace (auto_find_and_read t m w0)) = [].
Proof.
  intros t m w0 w1 Hd.
  assert (E : auto_find_and_read t m w0 =
      (Ok tt, w1, [Discover t; Print "No BLE devices found"])).
  { unfold auto_find_and_read. unfold bind at 1.
    rewrite (discover_run _ _ _ _ Hd). reflexivity. }
  rewrite E. auto.
Qed.

(** C7 (amended).  A read that fails with [UnsupportedDeviceError] or with
    any other [Exception] is caught where it happens and logged at error
    level, and the handler returns normally.  In the automatic run the
    message contains the address of the device and the loop goes on with the
    devices that remain; in the targeted run the message is the fixed
    unsupported-device text, or the text of the exception after a fixed
    prefix. *)
Theorem read_failure_caught_and_logged :
  forall (m : bool) (d : BLEDevice) (w w1 : World) (e : exn),
    update_device m d w = (Raise e, w1) ->
    is_Exception e = true ->
    (exists msg,
        read_one m d w =
          (Ok tt, w1,
           [Print (attempt_line d); UpdateDevice m d; LogError msg])
        /\ contains (ble_address d) msg = true
        /\ forall rest,
             for_each (d :: rest) (read_one m) w =
               match for_each rest (read_one m) w1 with
               | (r, w2, tr) =>
                   (r, w2,
                    [Print (attempt_line d); UpdateDevice m d; LogError msg]
                      ++ tr)
               end)
    /\ (forall a t w0 devices,
          discover t w0 = (Ok devices, w) ->
          find_target a devices = Some d ->
          exists msg,
            connect_and_read a t m w0 =
              (Ok tt, w1,
               [Discover t;
                Print ("Connecting to " ++ ble_address d ++ " ...");
                UpdateDevice m d; LogError msg])
            /\ ((e = UnsupportedDeviceError
                 /\ msg = "The device is not a supported Airthings device.")
                \/ (exists exc,
                      e = OtherException exc
                      /\ msg = ("Error connecting/reading device: "
                                  ++ exc)%string))).
Proof.
  intros m d w w1 e Hu He.
  destruct e as [|exc|msg]; [| |discriminate]; split.
  - exists ("Unsupported Airthings device at " ++ ble_address d)%string.
    repeat split.
    + now apply read_one_unsupported.
    + apply contains_at_end.
    + intros rest. simpl. unfold bind.
      rewrite (read_one_unsupported _ _ _ _ Hu). reflexivity.
  - intros a t w0 devices Hd Hf. eexists. split.
    + rewrite (connect_and_read_found _ _ _ _ _ _ _ _ _ Hd Hf Hu).
      reflexivity.
    + left. auto.
  - exists ("Error reading " ++ ble_address d ++ ": " ++ exc)%string.
    repeat split.
    + now apply read_one_other.
    + apply (contains_app "Error reading " (ble_address d)).
    + intros rest. simpl. unfold bind.
      rewrite (read_one_other _ _ _ _ _ Hu). reflexivity.
  - intros a t w0 devices Hd Hf. eexists. split.
    + rewrite (connect_and_read_found _ _ _ _ _ _ _ _ _ Hd Hf Hu).
      reflexivity.
    + right. eauto.
Qed.

(** C8.  When two or more discovered devices have the requested address up
    to case, the targeted run reads the first of them in discovery order and
    no other: the search stops at the first match. *)
Theorem connect_and_read_first_match :
  forall (a : string) (t : float) (m : bool)
         (pre rest : list BLEDevice) (d1 : BLEDevice) (w0 w1 : World),
    discover t w0 = (Ok (pre ++ d1 :: rest), w1) ->
    (forall p, In p pre -> lower (ble_address p) <> lower a) ->
    lower (ble_address d1) = lower a ->
    (exists d2, In d2 rest /\ lower (ble_address d2) = lower a) ->
    find_target a (pre ++ d1 :: rest) = Some d1
    /\ read_attempts (trace (connect_and_read a t m w0)) = [d1].
Proof.
  intros a t m pre rest d1 w0 w1 Hd Hpre H1 _.
  assert (Hf : find_target a (pre ++ d1 :: rest) = Some d1)
    by now apply find_target_first.
  split; [assumption |].
  eapply connect_and_read_attempts; eassumption.
Qed.

(** C9.  For every reading whose model is absent, [print_device] returns
    normally and its model line shows the absent model as it is; reading
    [product_name] off that model, which the guard avoids, would raise. *)
Theorem print_device_absent_model :
  forall (device : AirthingsDevice value) (w : World),
    model device = None ->
    print_device device w = (Ok tt, w, map Print (device_lines device))
    /\ nth_error (printed (trace (print_device device w))) 2
       = Some "  Model: None"
    /\ returns_normally (getattr_product_name (model device)) = false.
Proof.
  intros device w Hm. rewrite print_device_run. repeat split.
  - unfold trace. cbn [snd]. rewrite printed_prints.
    unfold device_lines, device_header. rewrite Hm. reflexivity.
  - rewrite Hm. reflexivity.
Qed.

(** C10.  A run without [--connect] asks for discovery twice, once in [scan]
    and once in [auto_find_and_read], the second time in the environment the
    first left behind.  The count that is listed comes from the first
    result and the devices that are read from the second, so the two may
    differ; when both results are empty the no-devices message is printed
    twice. *)
Theorem main_discovers_twice :
  forall (args : Namespace) (w0 w1 w2 : World) (ds1 ds2 : list BLEDevice),
    connect args = None ->
    discover (timeout args) w0 = (Ok ds1, w1) ->
    discover (timeout args) w1 = (Ok ds2, w2) ->
    discoveries (trace (main args w0)) = [timeout args; timeout args]
    /\ (exists k, read_attempts (trace (main args w0)) = firstn k ds2)
    /\ (ds1 <> [] ->
        In ("Found " ++ str_of_nat (length ds1) ++ " device(s)")%string
           (printed (trace (main args w0))))
    /\ (ds1 = [] -> ds2 = [] ->
        count_occ string_dec (printed (trace (main args w0)))
          "No BLE devices found" = 2).
Proof.
  intros args w0 w1 w2 ds1 ds2 Hc H1 H2.
  rewrite (main_auto_run _ _ _ _ Hc H1).
  rewrite (auto_find_and_read_run _ (negb (imperial args)) _ _ _ H2).
  destruct ds2 as [|d ds2].
  - unfold trace. simpl. repeat split.
    + now exists 0.
    + intros Hne. destruct ds1; [congruence |]. simpl. now right; left.
    + intros -> _. reflexivity.
  - destruct (for_each_read_one_trace (negb (imperial args)) (d :: ds2) w2)
      as [Hdis [k Hk]].
    destruct (for_each (d :: ds2) (read_one (negb (imperial args))) w2)
      as [[r w3] tr].
    unfold trace in *. simpl in *. rewrite Hdis, Hk.
    repeat split.
    + now exists k.
    + intros Hne. destruct ds1; [congruence |]. simpl. now right; left.
    + intros _ [=].
Qed.

(** ** More about whole runs *)

Lemma read_flags_app (t1 t2 : list event) :
  read_flags (t1 ++ t2) = read_flags t1 ++ read_flags t2.
Proof.
  induction t1 as [|[] t1 IH]; simpl; now rewrite ?IH.
Qed.

Lemma read_flags_prints (l : list string) : read_flags (map Print l) = [].
Proof.
  induction l; simpl; auto.
Qed.

Lemma read_one_cases (m : bool) (d : BLEDevice) (w : World) :
  read_one m d w =
    match update_device m d w with
    | (Ok r, w1) => (Ok tt, w1, reading_block m d r)
    | (Raise UnsupportedDeviceError, w1) =>
        (Ok tt, w1,
         [Print (attempt_line d); UpdateDevice m d;
          LogError ("Unsupported Airthings device at " ++ ble_address d)])
    | (Raise (OtherException exc), w1) =>
        (Ok tt, w1,
         [Print (attempt_line d); UpdateDevice m d;
          LogError ("Error reading " ++ ble_address d ++ ": " ++ exc)])
    | (Raise (Interrupt msg), w1) =>
        (Raise (Interrupt msg), w1,
         [Print (attempt_line d); UpdateDevice m d])
    end.
Proof.
  destruct (update_device m d w) as [[r|[|exc|msg]] w1] eqn:Hu.
  - now apply read_one_ok.
  - now apply read_one_unsupported.
  - now apply read_one_other.
  - now apply read_one_interrupt.
Qed.

Lemma scan_run (t : float) (w : World) :
  scan t w =
    match discover t w with
    | (Ok devices, w1) =>
        (Ok devices, w1,
         [Print ("Scanning for BLE devices for " ++ float_str t
                   ++ " seconds...");
          Discover t;
          Print (match devices with
                 | [] => "No BLE devices found"
                 | _ :: _ =>
                     "Found " ++ str_of_nat (length devices) ++ " device(s)"
                 end)])
    | (Raise e, w1) =>
        (Raise e, w1,
         [Print ("Scanning for BLE devices for " ++ float_str t
                   ++ " seconds...");
          Discover t])
    end.
Proof.
  unfold scan, bind, print, emit, BleakScanner_discover. simpl.
  destruct (discover t w) as [[[|d ds]|e] w1]; reflexivity.
Qed.

Lemma connect_and_read_cases (a : string) (t : float) (m : bool)
    (w : World) :
  connect_and_read a t m w =
    match discover t w with
    | (Raise e, w1) => (Raise e, w1, [Discover t])
    | (Ok devices, w1) =>
        match find_target a devices with
        | None =>
            (Ok tt, w1,
             [Discover t;
              Print ("Device with address " ++ a
                       ++ " not found during scan.");
              Print "Run without --connect to list available addresses."])
        | Some target =>
            match update_device m target w1 with
            | (Ok r, w2) =>
                (Ok tt, w2,
                 Discover t
                   :: Print ("Connecting to " ++ ble_address target ++ " ...")
                   :: UpdateDevice m target :: map Print (device_lines r))
            | (Raise UnsupportedDeviceError, w2) =>
                (Ok tt, w2,
                 [Discover t;
                  Print ("Connecting to " ++ ble_address target ++ " ...");
                  UpdateDevice m target;
                  LogError "The device is not a supported Airthings device."])
            | (Raise (OtherException exc), w2) =>
                (Ok tt, w2,
                 [Discover t;
                  Print ("Connecting to " ++ ble_address target ++ " ...");
                  UpdateDevice m target;
                  LogError ("Error connecting/reading device: " ++ exc)])
            | (Raise (Interrupt msg), w2) =>
                (Raise (Interrupt msg), w2,
                 [Discover t;
                  Print ("Connecting to " ++ ble_address target ++ " ...");
                  UpdateDevice m target])
            end
        end
    end.
Proof.
  destruct (discover t w) as [[devices|e] w1] eqn:Hd.
  - destruct (find_target a devices) as [target|] eqn:Hf.
    + destruct (update_device m target w1) as [o w2] eqn:Hu.
      rewrite (connect_and_read_found _ _ _ _ _ _ _ _ _ Hd Hf Hu).
      destruct o as [r|[| |]]; reflexivity.
    + unfold connect_and_read. unfold bind at 1.
      rewrite (discover_run _ _ _ _ Hd), Hf. reflexivity.
  - unfold connect_and_read. unfold bind at 1.
    rewrite (discover_run _ _ _ _ Hd). reflexivity.
Qed.

Lemma auto_find_and_read_cases (t : float) (m : bool) (w : World) :
  auto_find_and_read t m w =
    match discover t w with
    | (Raise e, w1) => (Raise e, w1, [Discover t])
    | (Ok [], w1) => (Ok tt, w1, [Discover t; Print "No BLE devices found"])
    | (Ok (d :: ds), w1) =>
        match for_each (d :: ds) (read_one m) w1 with
        | (r, w2, tr) => (r, w2, Discover t :: tr)
        end
    end.
Proof.
  destruct (discover t w) as [[ds|e] w1] eqn:Hd.
  - rewrite (auto_find_and_read_run _ m _ _ _ Hd). destruct ds; reflexivity.
  - unfold auto_find_and_read. unfold bind at 1.
    rewrite (discover_run _ _ _ _ Hd). reflexivity.
Qed.

Lemma main_targeted_run (args : Namespace) (a : string) (w : World) :
  truthy_connect (connect args) = Some a ->
  main args w =
    match connect_and_read a (timeout args) (negb (imperial args)) w with
    | (r, w1, tr) =>
        (r, w1, BasicConfig (if debug args then DEBUG else INFO) :: tr)
    end.
Proof.
  intros H. unfold main. rewrite H.
  unfold bind at 1. unfold emit at 1.
  destruct (connect_and_read _ _ _ w) as [[r w1] tr]. reflexivity.
Qed.

Lemma main_auto_cases (args : Namespace) (w : World) :
  truthy_connect (connect args) = None ->
  main args w =
    match scan (timeout args) w with
    | (Ok _, w1, tr1) =>
        match auto_find_and_read (timeout args) (negb (imperial args)) w1
        with
        | (r, w2, tr2) =>
            (r, w2,
             BasicConfig (if debug args then DEBUG else INFO) :: tr1 ++ tr2)
        end
    | (Raise e, w1, tr1) =>
        (Raise e, w1,
         BasicConfig (if debug args then DEBUG else INFO) :: tr1)
    end.
Proof.
  intros H. unfold main. rewrite H.
  unfold bind at 1. unfold emit at 1.
  unfold bind at 1.
  destruct (scan (timeout args) w) as [[[ds|e] w1] tr1]; [|reflexivity].
  destruct (auto_find_and_read _ _ w1) as [[r w2] tr2]. reflexivity.
Qed.

Lemma for_each_read_one_flags (m : bool) (devices : list BLEDevice)
    (w : World) :
  Forall (fun b => b = m)
    (read_flags (trace (for_each devices (read_one m) w))).
Proof.
  revert w. induction devices as [|d rest IH]; intros w; simpl.
  - constructor.
  - unfold bind. rewrite read_one_cases.
    destruct (update_device m d w) as [[r|[|exc|msg]] w1];
      try (specialize (IH w1);
           destruct (for_each rest (read_one m) w1) as [[res w2] tr]);
      unfold trace, reading_block in *; simpl in *;
      rewrite ?read_flags_app, ?read_flags_prints; simpl;
      repeat constructor; assumption.
Qed.

Lemma scan_trace (t : float) (w : World) :
  exists post,
    trace (scan t w) =
      Print ("Scanning for BLE devices for " ++ float_str t ++ " seconds...")
        :: Discover t :: post
    /\ discoveries post = []
    /\ read_attempts post = []
    /\ read_flags post = [].
Proof.
  rewrite scan_run.
  destruct (discover t w) as [[ds|e] w1]; eexists; unfold trace; simpl;
    (split; [reflexivity |]); auto.
Qed.

Lemma connect_and_read_trace (a : string) (t : float) (m : bool)
    (w : World) :
  exists post,
    trace (connect_and_read a t m w) = Discover t :: post
    /\ discoveries post = []
    /\ length (read_attempts post) <= 1
    /\ Forall (fun b => b = m) (read_flags post).
Proof.
  rewrite connect_and_read_cases.
  destruct (discover t w) as [[devices|e] w1].
  - destruct (find_target a devices) as [target|].
    + destruct (update_device m target w1) as [[r|[|exc|msg]] w2];
        eexists; unfold trace; simpl; (split; [reflexivity |]); simpl;
        rewrite ?discoveries_prints, ?read_attempts_prints,
          ?read_flags_prints; simpl; auto.
    + eexists; unfold trace; simpl; (split; [reflexivity |]); simpl; auto.
  - eexists; unfold trace; simpl; (split; [reflexivity |]); simpl; auto.
Qed.

Lemma auto_find_and_read_trace (t : float) (m : bool) (w : World) :
  exists post,
    trace (auto_find_and_read t m w) = Discover t :: post
    /\ discoveries post = []
    /\ Forall (fun b => b = m) (read_flags post).
Proof.
  rewrite auto_find_and_read_cases.
  destruct (discover t w) as [[[|d ds]|e] w1].
  - eexists; unfold trace; simpl; (split; [reflexivity |]); simpl; auto.
  - destruct (for_each_read_one_trace m (d :: ds) w1) as [Hdis _].
    pose proof (for_each_read_one_flags m (d :: ds) w1) as Hfl.
    destruct (for_each (d :: ds) (read_one m) w1) as [[r w2] tr].
    exists tr. unfold trace in *. simpl in *. auto.
  - eexists; unfold trace; simpl; (split; [reflexivity |]); simpl; auto.
Qed.

(** The opening line of a reading occurs once in its rendering. *)
Lemma sensor_lines_no_opening (l : list (string * value)) :
  count_occ string_dec (map sensor_line l) "Device info:" = 0.
Proof.
  induction l as [|kv l IH]; simpl; [reflexivity |].
  destruct (string_dec (sensor_line kv) "Device info:") as [E|_];
    [discriminate E | exact IH].
Qed.

Lemma device_lines_one_opening (device : AirthingsDevice value) :
  count_occ string_dec (device_lines device) "Device info:" = 1.
Proof.
  unfold device_lines, device_header.
  rewrite !count_occ_app, sensor_lines_no_opening.
  cbn [count_occ].
  repeat match goal with
         | |- context [string_dec ?x ?y] =>
             destruct (string_dec x y) as [E|E];
               [try discriminate E | try (exfalso; apply E; reflexivity)]
         end;
    reflexivity.
Qed.

Lemma attempt_line_no_opening (d : BLEDevice) :
  attempt_line d <> "Device info:".
Proof.
  discriminate.
Qed.

Lemma reading_block_projections (m : bool) (d : BLEDevice)
    (r : AirthingsDevice value) :
  printed (reading_block m d r) = attempt_line d :: device_lines r
  /\ log_messages (reading_block m d r) = []
  /\ read_attempts (reading_block m d r) = [d].
Proof.
  unfold reading_block. cbn [printed log_messages read_attempts].
  now rewrite printed_prints, log_messages_prints, read_attempts_prints.
Qed.

(** While no read is interrupted, the loop reads every device in turn and
    leaves, for each, either one reading or one error message. *)
Lemma for_each_read_one_complete (m : bool) (devices : list BLEDevice)
    (w : World) :
  never_interrupts ->
  result (for_each devices (read_one m) w) = Ok tt
  /\ read_attempts (trace (for_each devices (read_one m) w)) = devices
  /\ length (log_messages (trace (for_each devices (read_one m) w)))
     + count_occ string_dec
         (printed (trace (for_each devices (read_one m) w))) "Device info:"
     = length devices.
Proof.
  intros Hni. revert w. induction devices as [|d rest IH]; intros w.
  - repeat split.
  - cbn [for_each]. unfold bind. rewrite read_one_cases.
    pose proof (Hni m d w) as Hd.
    destruct (update_device m d w) as [[r|[|exc|msg]] w1];
      try (exfalso; eapply Hd; reflexivity);
      destruct (IH w1) as (Hres & Hatt & Hcnt);
      destruct (for_each rest (read_one m) w1) as [[res w2] tr];
      unfold result, trace in *; cbn [fst snd] in *;
      rewrite log_messages_app, printed_app, read_attempts_app.
    + destruct (reading_block_projections m d r) as (-> & -> & ->).
      cbn [app length].
      rewrite (count_occ_cons_neq string_dec _ (attempt_line_no_opening d)).
      rewrite count_occ_app, device_lines_one_opening.
      repeat split; [assumption | congruence | lia].
    + cbn [printed log_messages read_attempts app length].
      rewrite (count_occ_cons_neq string_dec _ (attempt_line_no_opening d)).
      repeat split; [assumption | congruence | lia].
    + cbn [printed log_messages read_attempts app length].
      rewrite (count_occ_cons_neq string_dec _ (attempt_line_no_opening d)).
      repeat split; [assumption | congruence | lia].
Qed.

Lemma address_matches_lower (a a' : string) (d : BLEDevice) :
  lower a = lower a' -> address_matches a d = address_matches a' d.
Proof.
  unfold address_matches. now intros ->.
Qed.

Lemma find_target_lower (a a' : string) (devices : list BLEDevice) :
  lower a = lower a' -> find_target a devices = find_target a' devices.
Proof.
  intros H. induction devices as [|d rest IH]; simpl; [reflexivity |].
  now rewrite (address_matches_lower _ _ d H), IH.
Qed.

(** ** Further properties of the script *)

(** X1.  A run with a non-empty [--connect] address asks for discovery
    exactly once, with the configured timeout, makes at most one read
    attempt, and reads no device whose address differs from the requested
    one by more than case; this holds whatever the environment answers. *)
Theorem main_targeted_single_pass :
  forall (args : Namespace) (a : string) (w : World),
    connect args = Some a ->
    a <> EmptyString ->
    discoveries (trace (main args w)) = [timeout args]
    /\ length (read_attempts (trace (main args w))) <= 1
    /\ forall d, In d (read_attempts (trace (main args w))) ->
                 lower (ble_address d) = lower a.
Proof.
  intros args a w Hc Ha.
  assert (Ht : truthy_connect (connect args) = Some a).
  { rewrite Hc. destruct a; [contradiction | reflexivity]. }
  rewrite (main_targeted_run _ _ w Ht), connect_and_read_cases.
  destruct (discover (timeout args) w) as [[devices|e] w1].
  - destruct (find_target a devices) as [target|] eqn:Hf.
    + destruct (find_target_some _ _ _ Hf) as [_ Hl].
      destruct (update_device _ target w1) as [[r|[|exc|msg]] w2];
        unfold trace; simpl;
        rewrite ?discoveries_prints, ?read_attempts_prints; simpl;
        (repeat split; [lia |]); intros d [<-|[]]; exact Hl.
    + unfold trace. simpl. repeat split; [lia |]. intros d [].
  - unfold trace. simpl. repeat split; [lia |]. intros d [].
Qed.

(** X2.  An empty [--connect] address is not a target: the run is the one
    made without [--connect], scan and automatic reading included. *)
Theorem main_empty_connect_runs_auto :
  forall (args : Namespace) (w : World),
    connect args = Some EmptyString ->
    main args w =
      main (mkNamespace None (timeout args) (imperial args) (debug args)) w.
Proof.
  intros args w Hc. unfold main. rewrite Hc. reflexivity.
Qed.

(** X3.  Every read attempt of a run, in either mode and whatever the
    environment answers, is made with the metric flag set exactly when
    [--imperial] was not given. *)
Theorem main_reads_use_unit_flag :
  forall (args : Namespace) (w : World),
    Forall (fun b => b = negb (imperial args))
      (read_flags (trace (main args w))).
Proof.
  intros args w.
  destruct (truthy_connect (connect args)) as [a|] eqn:Ht.
  - rewrite (main_targeted_run _ _ w Ht).
    destruct (connect_and_read_trace a (timeout args)
                (negb (imperial args)) w) as (post & Htr & _ & _ & Hfl).
    destruct (connect_and_read _ _ _ w) as [[r w1] tr].
    unfold trace in *. simpl in *. subst tr. exact Hfl.
  - rewrite (main_auto_cases _ w Ht).
    destruct (scan_trace (timeout args) w) as (p1 & Hs & _ & _ & Hf1).
    destruct (scan (timeout args) w) as [[[ds|e] w1] tr1];
      unfold trace in Hs; simpl in Hs; subst tr1.
    + destruct (auto_find_and_read_trace (timeout args)
                  (negb (imperial args)) w1) as (p2 & Ha & _ & Hf2).
      destruct (auto_find_and_read _ _ w1) as [[r w2] tr2].
      unfold trace in *. simpl in *. subst tr2.
      rewrite read_flags_app, Hf1. exact Hf2.
    + unfold trace. simpl. rewrite Hf1. constructor.
Qed.

(** X4.  In every run the first request to the radio is a discovery with
    the configured timeout: no read and no other discovery comes before it,
    and at most one further discovery, with the same timeout, comes after. *)
Theorem main_discovers_before_reading :
  forall (args : Namespace) (w : World),
    exists pre post,
      trace (main args w) = pre ++ Discover (timeout args) :: post
      /\ read_attempts pre = []
      /\ discoveries pre = []
      /\ (discoveries post = [] \/ discoveries post = [timeout args]).
Proof.
  intros args w.
  destruct (truthy_connect (connect args)) as [a|] eqn:Ht.
  - rewrite (main_targeted_run _ _ w Ht).
    destruct (connect_and_read_trace a (timeout args)
                (negb (imperial args)) w) as (post & Htr & Hdis & _ & _).
    destruct (connect_and_read _ _ _ w) as [[r w1] tr].
    unfold trace in *. simpl in *. subst tr.
    exists [BasicConfig (if debug args then DEBUG else INFO)], post.
    repeat split. now left.
  - rewrite (main_auto_cases _ w Ht).
    destruct (scan_trace (timeout args) w) as (p1 & Hs & Hd1 & _ & _).
    exists [BasicConfig (if debug args then DEBUG else INFO);
            Print ("Scanning for BLE devices for "
                     ++ float_str (timeout args) ++ " seconds...")].
    destruct (scan (timeout args) w) as [[[ds|e] w1] tr1];
      unfold trace in Hs; simpl in Hs; subst tr1.
    + destruct (auto_find_and_read_trace (timeout args)
                  (negb (imperial args)) w1) as (p2 & Ha & Hd2 & _).
      destruct (auto_find_and_read _ _ w1) as [[r w2] tr2].
      unfold trace in *. simpl in *. subst tr2.
      exists (p1 ++ Discover (timeout args) :: p2).
      repeat split. right.
      rewrite discoveries_app, Hd1. simpl. now rewrite Hd2.
    + exists p1. unfold trace. simpl. repeat split. now left.
Qed.

(** X5.  A failure of the discovery call is caught nowhere, whatever its
    class: [scan], [connect_and_read] and [auto_find_and_read] end with the
    exception of the call right after the request, and a whole run that
    meets it at its first request ends with it, having read no device,
    logged nothing and made no second request. *)
Theorem discovery_failure_propagates :
  forall (t : float) (w w1 : World) (e : exn),
    discover t w = (Raise e, w1) ->
    scan t w =
      (Raise e, w1,
       [Print ("Scanning for BLE devices for " ++ float_str t
                 ++ " seconds...");
        Discover t])
    /\ (forall a m, connect_and_read a t m w = (Raise e, w1, [Discover t]))
    /\ (forall m, auto_find_and_read t m w = (Raise e, w1, [Discover t]))
    /\ (forall args,
          timeout args = t ->
          result (main args w) = Raise e
          /\ discoveries (trace (main args w)) = [t]
          /\ read_attempts (trace (main args w)) = []
          /\ log_messages (trace (main args w)) = []).
Proof.
  intros t w w1 e Hd. repeat split.
  - rewrite scan_run, Hd. reflexivity.
  - intros a m. rewrite connect_and_read_cases, Hd. reflexivity.
  - intros m. rewrite auto_find_and_read_cases, Hd. reflexivity.
  - destruct (truthy_connect (connect args)) as [a|] eqn:Ht.
    + rewrite (main_targeted_run _ _ w Ht), connect_and_read_cases, H, Hd.
      reflexivity.
    + rewrite (main_auto_cases _ w Ht), scan_run, H, Hd. reflexivity.
  - destruct (truthy_connect (connect args)) as [a|] eqn:Ht.
    + rewrite (main_targeted_run _ _ w Ht), connect_and_read_cases, H, Hd.
      reflexivity.
    + rewrite (main_auto_cases _ w Ht), scan_run, H, Hd. reflexivity.
  - destruct (truthy_connect (connect args)) as [a|] eqn:Ht.
    + rewrite (main_targeted_run _ _ w Ht), connect_and_read_cases, H, Hd.
      reflexivity.
    + rewrite (main_auto_cases _ w Ht), scan_run, H, Hd. reflexivity.
  - destruct (truthy_connect (connect args)) as [a|] eqn:Ht.
    + rewrite (main_targeted_run _ _ w Ht), connect_and_read_cases, H, Hd.
      reflexivity.
    + rewrite (main_auto_cases _ w Ht), scan_run, H, Hd. reflexivity.
Qed.

(** X6.  While no read is cut short by an interrupt, the automatic run
    attempts every discovered device exactly once, in discovery order, and
    returns normally, however many of the reads fail. *)
Theorem auto_find_and_read_attempts_all :
  forall (t : float) (m : bool) (devices : list BLEDevice) (w0 w1 : World),
    never_interrupts ->
    discover t w0 = (Ok devices, w1) ->
    result (auto_find_and_read t m w0) = Ok tt
    /\ read_attempts (trace (auto_find_and_read t m w0)) = devices.
Proof.
  intros t m devices w0 w1 Hni Hd.
  rewrite auto_find_and_read_cases, Hd.
  destruct devices as [|d ds]; [split; reflexivity |].
  destruct (for_each_read_one_complete m (d :: ds) w1 Hni)
    as (Hres & Hatt & _).
  destruct (for_each (d :: ds) (read_one m) w1) as [[r w2] tr].
  unfold result, trace in *. simpl in *. auto.
Qed.

(** X7.  While no read is cut short by an interrupt, the automatic run
    accounts for every discovered device: the number of error messages
    logged plus the number of readings printed (each opens with the line
    Device info:) is the number of devices discovered. *)
Theorem auto_find_and_read_accounts_for_all :
  forall (t : float) (m : bool) (devices : list BLEDevice) (w0 w1 : World),
    never_interrupts ->
    discover t w0 = (Ok devices, w1) ->
    length (log_messages (trace (auto_find_and_read t m w0)))
    + count_occ string_dec
        (printed (trace (auto_find_and_read t m w0))) "Device info:"
    = length devices.
Proof.
  intros t m devices w0 w1 Hni Hd.
  rewrite auto_find_and_read_cases, Hd.
  destruct devices as [|d ds]; [reflexivity |].
  destruct (for_each_read_one_complete m (d :: ds) w1 Hni)
    as (_ & _ & Hcnt).
  destruct (for_each (d :: ds) (read_one m) w1) as [[r w2] tr].
  unfold trace in *. cbn [fst snd] in *.
  cbn [log_messages printed]. exact Hcnt.
Qed.


(** X9.  When the first discovered device whose address matches the
    requested one up to case is read successfully, the targeted run prints
    the connecting line with the address as the device advertises it,
    followed by the whole reading, logs nothing and returns normally. *)
Theorem connect_and_read_prints_reading :
  forall (a : string) (t : float) (m : bool) (pre rest : list BLEDevice)
         (d : BLEDevice) (r : AirthingsDevice value) (w0 w1 w2 : World),
    discover t w0 = (Ok (pre ++ d :: rest), w1) ->
    (forall p, In p pre -> lower (ble_address p) <> lower a) ->
    lower (ble_address d) = lower a ->
    update_device m d w1 = (Ok r, w2) ->
    connect_and_read a t m w0 =
      (Ok tt, w2,
       Discover t :: Print ("Connecting to " ++ ble_address d ++ " ...")
         :: UpdateDevice m d :: map Print (device_lines r))
    /\ printed (trace (connect_and_read a t m w0)) =
         ("Connecting to " ++ ble_address d ++ " ...")%string
           :: device_lines r
    /\ log_messages (trace (connect_and_read a t m w0)) = [].
Proof.
  intros a t m pre rest d r w0 w1 w2 Hd Hpre Hl Hu.
  rewrite connect_and_read_cases, Hd.
  rewrite (find_target_first _ _ rest _ Hpre Hl), Hu.
  unfold trace. cbn [snd printed log_messages].
  now rewrite printed_prints, log_messages_prints.
Qed.

(** X10.  The requested address matters up to case only: two spellings
    that lower to the same text give the same outcome, the same state of
    the environment, the same read attempts and the same log. *)
Theorem connect_and_read_address_case :
  forall (a a' : string) (t : float) (m : bool) (w : World),
    lower a = lower a' ->
    fst (connect_and_read a t m w) = fst (connect_and_read a' t m w)
    /\ read_attempts (trace (connect_and_read a t m w))
       = read_attempts (trace (connect_and_read a' t m w))
    /\ log_messages (trace (connect_and_read a t m w))
       = log_messages (trace (connect_and_read a' t m w)).
Proof.
  intros a a' t m w Hl.
  rewrite !connect_and_read_cases.
  destruct (discover t w) as [[devices|e] w1]; [|auto].
  rewrite (find_target_lower _ _ devices Hl).
  destruct (find_target a' devices) as [target|]; [|auto].
  destruct (update_device m target w1) as [[r|[|exc|msg]] w2]; auto.
Qed.


End Orchestrator.

Arguments result {World A} r.
Arguments trace {World A} r.
Arguments rejected_before_io {World A} r.
Arguments key_lt {value} a b.
Arguments same_reading {value} d1 d2.
Arguments device_header {value} device.
Arguments device_lines {value} value_str value_lt device.
Arguments sensor_line {value} value_str kv.

(** * Concrete runs in the scripted environment *)

Local Notation "'run_scan'" :=
  (scan Scripted.float_str Scripted.World Scripted.discover).
Local Notation "'run_print_device'" :=
  (print_device Scripted.value Scripted.value_str Scripted.value_lt
     Scripted.World).
Local Notation "'run_read_one'" :=
  (read_one Scripted.value Scripted.value_str Scripted.value_lt
     Scripted.World Scripted.update_device).
Local Notation "'run_connect_and_read'" :=
  (connect_and_read Scripted.value Scripted.value_str Scripted.value_lt
     lower_ascii Scripted.World Scripted.discover Scripted.update_device).
Local Notation "'run_auto_find_and_read'" :=
  (auto_find_and_read Scripted.value Scripted.value_str Scripted.value_lt
     Scripted.World Scripted.discover Scripted.update_device).
Local Notation "'run_main'" :=
  (main Scripted.value Scripted.value_str Scripted.value_lt
     Scripted.float_str lower_ascii Scripted.World Scripted.discover
     Scripted.update_device).

Import Scripted.

(** C1, as stated, fails: with a timeout of zero, and with a negative one,
    [scan] is not rejected; it asks for discovery with that timeout and
    returns what was discovered. *)
Lemma scan_accepts_nonpositive_timeout :
  float_le float_zero float_zero = true
  /\ run_scan float_zero [Ok [devA]] =
       (Ok [devA], [],
        [Print "Scanning for BLE devices for 0.0 seconds...";
         Discover float_zero; Print "Found 1 device(s)"])
  /\ ~ rejected_before_io (run_scan float_zero [Ok [devA]])
  /\ float_le float_neg_one float_zero = true
  /\ ~ rejected_before_io (run_scan float_neg_one [Ok [devA]]).
Proof.
  repeat split; try reflexivity.
  - intros [H _]. vm_compute in H. discriminate.
  - intros [H _]. vm_compute in H. discriminate.
Qed.

(** C7, as stated, fails: in a targeted run on a device that turns out to be
    unsupported, the failure is caught and logged, but no logged message
    contains the address of the device. *)
Lemma targeted_failure_log_omits_address :
  update_device true devB [] = (Raise UnsupportedDeviceError, [])
  /\ run_connect_and_read "AA:BB:CC:DD:EE:02" float_eight true
       [Ok [devA; devB; devC]] =
       (Ok tt, [],
        [Discover float_eight; Print "Connecting to AA:BB:CC:DD:EE:02 ...";
         UpdateDevice true devB;
         LogError "The device is not a supported Airthings device."])
  /\ ~ logged_with_address (ble_address devB)
        (trace (run_connect_and_read "AA:BB:CC:DD:EE:02" float_eight true
                  [Ok [devA; devB; devC]])).
Proof.
  repeat split.
  intros [msg [Hin Hc]]. vm_compute in Hin.
  destruct Hin as [<-|[]]. vm_compute in Hc. discriminate.
Qed.

Lemma auto_find_and_read_skips_unsupported_witness :
  log_messages
    (trace (run_auto_find_and_read float_eight true [Ok [devA; devB; devC]]))
  = ["Unsupported Airthings device at AA:BB:CC:DD:EE:02"]
  /\ read_attempts
       (trace (run_auto_find_and_read float_eight true
                 [Ok [devA; devB; devC]]))
     = [devA; devB; devC].
Proof.
  destruct (auto_find_and_read_skips_unsupported
              value value_str value_lt World discover update_device
              float_eight true devA devB devC readingA readingC
              [Ok [devA; devB; devC]] [] [] [] []
              eq_refl eq_refl eq_refl eq_refl)
    as (_ & Hlog & _ & Hread).
  split; assumption.
Defined.

Lemma connect_and_read_not_found_witness :
  run_connect_and_read "AA:BB:CC:DD:EE:99" float_eight true
    [Ok [devA; devB]] =
    (Ok tt, [],
     [Discover float_eight;
      Print "Device with address AA:BB:CC:DD:EE:99 not found during scan.";
      Print "Run without --connect to list available addresses."]).
Proof.
  apply (connect_and_read_not_found
           value value_str value_lt lower_ascii World discover update_device
           "AA:BB:CC:DD:EE:99" float_eight true [devA; devB]
           [Ok [devA; devB]] []).
  - reflexivity.
  - intros d [<-|[<-|[]]]; vm_compute; discriminate.
Defined.

Lemma connect_and_read_one_attempt_witness :
  exists target,
    In target [devA; devB; devC]
    /\ lower_ascii (ble_address target) = lower_ascii "aa:bb:cc:dd:ee:03"
    /\ read_attempts
         (trace (run_connect_and_read "aa:bb:cc:dd:ee:03" float_eight false
                   [Ok [devA; devB; devC]]))
       = [target].
Proof.
  apply (connect_and_read_one_attempt
           value value_str value_lt lower_ascii World discover update_device
           "aa:bb:cc:dd:ee:03" float_eight false [devA; devB; devC]
           [Ok [devA; devB; devC]] []).
  - reflexivity.
  - exists devC. split; [simpl; auto | reflexivity].
Defined.

Lemma print_device_sensors_sorted_witness :
  exists rows,
    printed (trace (run_print_device readingA []))
    = device_header readingA ++ map (sensor_line value_str) rows
        ++ [newline]
    /\ Permutation rows (sensors readingA)
    /\ StronglySorted key_lt rows
    /\ forall device',
         same_reading device' readingA ->
         run_print_device device' [] = run_print_device readingA [].
Proof.
  apply (print_device_sensors_sorted value value_str value_lt World
           readingA []).
  simpl. repeat constructor; simpl; intuition discriminate.
Defined.

Lemma auto_find_and_read_empty_witness :
  run_auto_find_and_read float_eight true [Ok []] =
    (Ok tt, [], [Discover float_eight; Print "No BLE devices found"])
  /\ count_occ string_dec
       (printed (trace (run_auto_find_and_read float_eight true [Ok []])))
       "No BLE devices found" = 1
  /\ read_attempts (trace (run_auto_find_and_read float_eight true [Ok []]))
     = [].
Proof.
  apply (auto_find_and_read_empty
           value value_str value_lt World discover update_device
           float_eight true [Ok []] []).
  reflexivity.
Defined.

Lemma read_failure_caught_and_logged_witness :
  exists msg,
    run_read_one true devB [] =
      (Ok tt, [],
       [Print (attempt_line devB); UpdateDevice true devB; LogError msg])
    /\ contains (ble_address devB) msg = true.
Proof.
  destruct (read_failure_caught_and_logged
              value value_str value_lt lower_ascii World discover
              update_device true devB [] [] UnsupportedDeviceError
              eq_refl eq_refl)
    as [[msg (Hrun & Hc & _)] _].
  exists msg. split; assumption.
Defined.

Lemma connect_and_read_first_match_witness :
  find_target lower_ascii "AA:BB:CC:DD:EE:01"
    ([devB] ++ devA2 :: [devC; devA]) = Some devA2
  /\ read_attempts
       (trace (run_connect_and_read "AA:BB:CC:DD:EE:01" float_eight true
                 [Ok [devB; devA2; devC; devA]]))
     = [devA2].
Proof.
  apply (connect_and_read_first_match
           value value_str value_lt lower_ascii World discover update_device
           "AA:BB:CC:DD:EE:01" float_eight true [devB] [devC; devA] devA2
           [Ok [devB; devA2; devC; devA]] []).
  - reflexivity.
  - intros p [<-|[]]. vm_compute. discriminate.
  - reflexivity.
  - exists devA. split; [simpl; auto | reflexivity].
Defined.

Lemma print_device_absent_model_witness :
  run_print_device readingC [] =
    (Ok tt, [], map Print (device_lines value_str value_lt readingC))
  /\ nth_error (printed (trace (run_print_device readingC []))) 2
     = Some "  Model: None"
  /\ returns_normally (getattr_product_name (model readingC)) = false.
Proof.
  apply (print_device_absent_model value value_str value_lt World
           readingC []).
  reflexivity.
Defined.

Lemma main_discovers_twice_witness :
  let args := mkNamespace None float_eight false false in
  let w0 := [Ok [devA]; Ok [devB; devC]] in
  discoveries (trace (run_main args w0)) = [float_eight; float_eight]
  /\ (exists k, read_attempts (trace (run_main args w0))
                = firstn k [devB; devC])
  /\ ([devA] <> [] ->
      In "Found 1 device(s)" (printed (trace (run_main args w0))))
  /\ ([devA] = [] -> [devB; devC] = [] ->
      count_occ string_dec (printed (trace (run_main args w0)))
        "No BLE devices found" = 2).
Proof.
  apply (main_discovers_twice
           value value_str value_lt float_str lower_ascii World discover
           update_device (mkNamespace None float_eight false false)
           [Ok [devA]; Ok [devB; devC]] [Ok [devB; devC]] []
           [devA] [devB; devC]);
    reflexivity.
Defined.

(** ** Concrete runs for the further properties *)

Lemma scripted_never_interrupts : never_interrupts value World update_device.
Proof.
  intros m d w msg. unfold update_device.
  repeat match goal with
         | |- context [String.eqb ?x ?y] => destruct (String.eqb x y)
         end;
    discriminate.
Qed.

Lemma main_targeted_single_pass_witness :
  let args := mkNamespace (Some "aa:bb:cc:dd:ee:03") float_eight true false in
  let w := [Ok [devA; devB; devC]] in
  discoveries (trace (run_main args w)) = [float_eight]
  /\ length (read_attempts (trace (run_main args w))) <= 1
  /\ forall d, In d (read_attempts (trace (run_main args w))) ->
               lower_ascii (ble_address d) = lower_ascii "aa:bb:cc:dd:ee:03".
Proof.
  apply (main_targeted_single_pass
           value value_str value_lt float_str lower_ascii World discover
           update_device
           (mkNamespace (Some "aa:bb:cc:dd:ee:03") float_eight true false)
           "aa:bb:cc:dd:ee:03" [Ok [devA; devB; devC]]).
  - reflexivity.
  - discriminate.
Defined.

Lemma main_empty_connect_runs_auto_witness :
  run_main (mkNamespace (Some "") float_eight false false)
    [Ok [devA]; Ok [devA; devB]]
  = run_main (mkNamespace None float_eight false false)
      [Ok [devA]; Ok [devA; devB]].
Proof.
  apply (main_empty_connect_runs_auto
           value value_str value_lt float_str lower_ascii World discover
           update_device (mkNamespace (Some "") float_eight false false)
           [Ok [devA]; Ok [devA; devB]]).
  reflexivity.
Defined.

Lemma discovery_failure_propagates_witness :
  let e := OtherException "Bluetooth adapter not found" in
  run_scan float_eight [Raise e] =
    (Raise e, [],
     [Print "Scanning for BLE devices for 8.0 seconds...";
      Discover float_eight])
  /\ (forall a m,
        run_connect_and_read a float_eight m [Raise e] =
          (Raise e, [], [Discover float_eight]))
  /\ (forall m,
        run_auto_find_and_read float_eight m [Raise e] =
          (Raise e, [], [Discover float_eight]))
  /\ (forall args,
        timeout args = float_eight ->
        result (run_main args [Raise e]) = Raise e
        /\ discoveries (trace (run_main args [Raise e])) = [float_eight]
        /\ read_attempts (trace (run_main args [Raise e])) = []
        /\ log_messages (trace (run_main args [Raise e])) = []).
Proof.
  apply (discovery_failure_propagates
           value value_str value_lt float_str lower_ascii World discover
           update_device float_eight
           [Raise (OtherException "Bluetooth adapter not found")] []
           (OtherException "Bluetooth adapter not found")).
  reflexivity.
Defined.

Lemma auto_find_and_read_attempts_all_witness :
  result (run_auto_find_and_read float_eight true
            [Ok [devA; devB; devC; devA2]]) = Ok tt
  /\ read_attempts
       (trace (run_auto_find_and_read float_eight true
                 [Ok [devA; devB; devC; devA2]]))
     = [devA; devB; devC; devA2].
Proof.
  apply (auto_find_and_read_attempts_all
           value value_str value_lt World discover update_device
           float_eight true [devA; devB; devC; devA2]
           [Ok [devA; devB; devC; devA2]] []).
  - exact scripted_never_interrupts.
  - reflexivity.
Defined.

Lemma auto_find_and_read_accounts_for_all_witness :
  length (log_messages
            (trace (run_auto_find_and_read float_eight true
                      [Ok [devA; devB; devC; devA2]])))
  + count_occ string_dec
      (printed (trace (run_auto_find_and_read float_eight true
                         [Ok [devA; devB; devC; devA2]])))
      "Device info:"
  = 4.
Proof.
  apply (auto_find_and_read_accounts_for_all
           value value_str value_lt World discover update_device
           float_eight true [devA; devB; devC; devA2]
           [Ok [devA; devB; devC; devA2]] []).
  - exact scripted_never_interrupts.
  - reflexivity.
Defined.


Lemma connect_and_read_prints_reading_witness :
  printed
    (trace (run_connect_and_read "aa:bb:cc:dd:ee:01" float_eight true
              [Ok [devB; devA; devC]]))
  = "Connecting to AA:BB:CC:DD:EE:01 ..."
      :: device_lines value_str value_lt readingA
  /\ log_messages
       (trace (run_connect_and_read "aa:bb:cc:dd:ee:01" float_eight true
                 [Ok [devB; devA; devC]]))
     = [].
Proof.
  apply (connect_and_read_prints_reading
           value value_str value_lt lower_ascii World discover update_device
           "aa:bb:cc:dd:ee:01" float_eight true [devB] [devC] devA readingA
           [Ok [devB; devA; devC]] [] []).
  - reflexivity.
  - intros p [<-|[]]. vm_compute. discriminate.
  - reflexivity.
  - reflexivity.
Defined.

Lemma connect_and_read_address_case_witness :
  fst (run_connect_and_read "AA:BB:CC:DD:EE:02" float_eight true
         [Ok [devA; devB]])
  = fst (run_connect_and_read "aa:bb:cc:dd:ee:02" float_eight true
           [Ok [devA; devB]])
  /\ read_attempts
       (trace (run_connect_and_read "AA:BB:CC:DD:EE:02" float_eight true
                 [Ok [devA; devB]]))
     = read_attempts
         (trace (run_connect_and_read "aa:bb:cc:dd:ee:02" float_eight true
                   [Ok [devA; devB]]))
  /\ log_messages
       (trace (run_connect_and_read "AA:BB:CC:DD:EE:02" float_eight true
                 [Ok [devA; devB]]))
     = log_messages
         (trace (run_connect_and_read "aa:bb:cc:dd:ee:02" float_eight true
                   [Ok [devA; devB]])).
Proof.
  apply (connect_and_read_address_case
           value value_str value_lt lower_ascii World discover update_device
           "AA:BB:CC:DD:EE:02" "aa:bb:cc:dd:ee:02" float_eight true
           [Ok [devA; devB]]).
  reflexivity.
Defined.
